(* Verification of the two chat gateways of the chatbot repository:
   - src/app.py     (Service A): prompt assembly, retry controller with
                      exponential backoff, and the POST /api/submit handler;
   - src/charan.py  (Service B): exact-match question cache in front of
                      the generative model (POST /get_response).

   The generative model, the clock and the SQLite file are external
   collaborators: their observable behaviour is modelled by explicit
   inputs (the outcome of each call) and by traces of events (each call
   to the model, each sleep).  Console logging (print) is not modelled. *)

From Stdlib Require Import String Ascii List ZArith NArith Bool Lia.
Import ListNotations.
Open Scope list_scope.
Open Scope string_scope.
Set Warnings "-register-all".

(* ------------------------------------------------------------------ *)
(** * Python string primitives                                          *)
(* ------------------------------------------------------------------ *)

Module Py.

(** Characters are code points below 256 (one [ascii] each). *)

(** [str.isspace] on the code points below 256. *)
Definition is_space (c : ascii) : bool :=
  let n := nat_of_ascii c in
  ((9 <=? n) && (n <=? 13))%nat || ((28 <=? n) && (n <=? 32))%nat
  || (n =? 133)%nat || (n =? 160)%nat.

Fixpoint lstrip (s : string) : string :=
  match s with
  | EmptyString => EmptyString
  | String c rest => if is_space c then lstrip rest else s
  end.

Fixpoint rev_string (s : string) (acc : string) : string :=
  match s with
  | EmptyString => acc
  | String c rest => rev_string rest (String c acc)
  end.

Definition rstrip (s : string) : string :=
  rev_string (lstrip (rev_string s EmptyString)) EmptyString.

(** [str.strip()] with no argument. *)
Definition strip (s : string) : string := rstrip (lstrip s).

(** [str.lower()] on ASCII letters; the other code points below 256 never
    lower to an ASCII character, which is all the markers are made of. *)
Definition lower_char (c : ascii) : ascii :=
  let n := nat_of_ascii c in
  if ((65 <=? n) && (n <=? 90))%nat then ascii_of_nat (n + 32) else c.

Fixpoint lower (s : string) : string :=
  match s with
  | EmptyString => EmptyString
  | String c rest => String (lower_char c) (lower rest)
  end.

(** [needle in hay] for strings. *)
Fixpoint contains (needle hay : string) : bool :=
  if String.prefix needle hay then true
  else match hay with
       | EmptyString => false
       | String _ rest => contains needle rest
       end.

(** Decimal digits of a natural number ([str] of a non-negative int). *)
Definition digit (n : N) : ascii := ascii_of_N (48 + n).

Fixpoint dec_aux (fuel : nat) (n : N) (acc : string) : string :=
  match fuel with
  | O => String (digit n) acc
  | S f =>
      if (n <? 10)%N then String (digit n) acc
      else dec_aux f (n / 10)%N (String (digit (n mod 10)%N) acc)
  end.

(** [str] of a Python int. *)
Definition str_int (z : Z) : string :=
  match z with
  | Z0 => "0"
  | Zpos p => dec_aux (Pos.size_nat p) (Npos p) EmptyString
  | Zneg p => String "-" (dec_aux (Pos.size_nat p) (Npos p) EmptyString)
  end.

(** [repr] of a str: single quotes unless the text holds a single quote
    and no double quote. *)
Definition hex_digit (n : nat) : ascii :=
  if (n <? 10)%nat then ascii_of_nat (48 + n) else ascii_of_nat (87 + n).

Definition repr_char (q : ascii) (c : ascii) : string :=
  let n := nat_of_ascii c in
  if Ascii.eqb c "\"%char then "\\"
  else if Ascii.eqb c q then String "\"%char (String c EmptyString)
  else if (n =? 10)%nat then "\n"
  else if (n =? 13)%nat then "\r"
  else if (n =? 9)%nat then "\t"
  else if ((n <? 32) || ((127 <=? n) && (n <? 161)) || (n =? 173))%nat then
    String "\"%char (String "x"%char (String (hex_digit (n / 16))
                              (String (hex_digit (n mod 16)) EmptyString)))
  else String c EmptyString.

Fixpoint repr_body (q : ascii) (s : string) : string :=
  match s with
  | EmptyString => EmptyString
  | String c rest => repr_char q c ++ repr_body q rest
  end.

Definition dquote : ascii := ascii_of_nat 34.

Definition repr_str (s : string) : string :=
  let q := if contains "'" s && negb (contains (String dquote EmptyString) s)
           then dquote else "'"%char in
  String q (repr_body q s ++ String q EmptyString).

Fixpoint join (sep : string) (xs : list string) : string :=
  match xs with
  | [] => EmptyString
  | [x] => x
  | x :: rest => x ++ sep ++ join sep rest
  end.

End Py.

(* ------------------------------------------------------------------ *)
(** * Values, exceptions and events shared by both services             *)
(* ------------------------------------------------------------------ *)

(** A JSON document as Flask's [request.get_json()] hands it to the
    handler: None, bool, int, str, list or dict.  A dict is listed with
    distinct keys in insertion order, as [json.loads] builds it (the last
    of duplicated keys is kept).  Floats are not modelled. *)
Inductive json : Type :=
| JNull
| JBool (b : bool)
| JNum (z : Z)
| JStr (s : string)
| JArr (xs : list json)
| JObj (kvs : list (string * json)).

(** [type(v).__name__] *)
Definition py_type_name (v : json) : string :=
  match v with
  | JNull => "NoneType"
  | JBool _ => "bool"
  | JNum _ => "int"
  | JStr _ => "str"
  | JArr _ => "list"
  | JObj _ => "dict"
  end.

(** [repr(v)] *)
Fixpoint py_repr (v : json) : string :=
  match v with
  | JNull => "None"
  | JBool true => "True"
  | JBool false => "False"
  | JNum z => Py.str_int z
  | JStr s => Py.repr_str s
  | JArr xs => "[" ++ Py.join ", " (map py_repr xs) ++ "]"
  | JObj kvs =>
      "{" ++ Py.join ", " (map (fun kv => Py.repr_str (fst kv) ++ ": " ++ py_repr (snd kv)) kvs)
      ++ "}"
  end.

(** [str(v)], as an f-string renders it. *)
Definition py_str (v : json) : string :=
  match v with
  | JStr s => s
  | _ => py_repr v
  end.

(** A raised Python exception: its class and [str(e)]. *)
Record exc : Type := mk_exc { exc_type : string; exc_msg : string }.

Definition runtime_error (m : string) : exc := mk_exc "RuntimeError" m.

Definition attribute_error (v : json) (attr : string) : exc :=
  mk_exc "AttributeError"
    ("'" ++ py_type_name v ++ "' object has no attribute '" ++ attr ++ "'").

Definition type_error (m : string) : exc := mk_exc "TypeError" m.

(** Lookup in a dict. *)
Fixpoint dict_get (k : string) (kvs : list (string * json)) : option json :=
  match kvs with
  | [] => None
  | (k', v) :: rest => if String.eqb k k' then Some v else dict_get k rest
  end.

(** [v.get(k, default)]: only a dict has a [get] method. *)
Definition py_get (k : string) (default : json) (v : json) : exc + json :=
  match v with
  | JObj kvs =>
      inr (match dict_get k kvs with Some x => x | None => default end)
  | _ => inl (attribute_error v "get")
  end.

(** [len(v)] *)
Definition py_len (v : json) : exc + Z :=
  match v with
  | JStr s => inr (Z.of_nat (String.length s))
  | JArr xs => inr (Z.of_nat (length xs))
  | JObj kvs => inr (Z.of_nat (length kvs))
  | _ => inl (type_error ("object of type '" ++ py_type_name v ++ "' has no len()"))
  end.

Fixpoint chars (s : string) : list json :=
  match s with
  | EmptyString => []
  | String c rest => JStr (String c EmptyString) :: chars rest
  end.

(** [for x in v]: a str yields its characters, a dict its keys. *)
Definition py_iter (v : json) : exc + list json :=
  match v with
  | JStr s => inr (chars s)
  | JArr xs => inr xs
  | JObj kvs => inr (map (fun kv => JStr (fst kv)) kvs)
  | _ => inl (type_error ("'" ++ py_type_name v ++ "' object is not iterable"))
  end.

Definition newline : string := String (ascii_of_nat 10) EmptyString.

(** What one call of [model.generate_content(prompt)] (followed by the
    read of [response.text]) does: return the text, or raise. *)
Inductive outcome : Type :=
| Ok (text : string)
| Fail (e : exc).

(** Observable effects: a call of the generative model with its prompt,
    and a [time.sleep]. *)
Inductive event : Type :=
| ECall (prompt : string)
| ESleep (secs : Z).

(** Number of calls of the generative model in a trace. *)
Definition count_calls (tr : list event) : nat :=
  length (filter (fun ev => match ev with ECall _ => true | _ => false end) tr).

(** Python's [range(lo, hi)]. *)
Definition py_range (lo hi : Z) : list Z :=
  map (fun i => (lo + Z.of_nat i)%Z) (seq 0 (Z.to_nat (hi - lo))).

(* ------------------------------------------------------------------ *)
(** * Service A (src/app.py)                                            *)
(* ------------------------------------------------------------------ *)

Module ServiceA.

(** What a call of [chat_with_gemini] ends in. *)
Inductive ret : Type :=
| RetNone                (* the function falls off its end *)
| RetText (s : string)   (* return response.text.strip() *)
| Raise (e : exc).

(** One iteration of the prompt-building loop:
      if msg.get('role') == 'user':
          conversation += f"You: {msg.get('content','')}\n"
      else:
          conversation += f"Bot: {msg.get('content','')}\n" *)
Definition is_user (role : json) : bool :=
  match role with
  | JStr s => String.eqb s "user"
  | _ => false
  end.

Definition render_msg (msg : json) : exc + string :=
  match py_get "role" JNull msg with
  | inl e => inl e
  | inr role =>
      match py_get "content" (JStr EmptyString) msg with
      | inl e => inl e
      | inr content =>
          inr ((if is_user role then "You: " else "Bot: ")
               ++ py_str content ++ newline)
      end
  end.

Fixpoint build_loop (msgs : list json) (conversation : string) : exc + string :=
  match msgs with
  | [] => inr conversation
  | msg :: rest =>
      match render_msg msg with
      | inl e => inl e
      | inr piece => build_loop rest (conversation ++ piece)
      end
  end.

(** conversation = ''; for msg in history: ... *)
Definition build_conversation (history : json) : exc + string :=
  match py_iter history with
  | inl e => inl e
  | inr msgs => build_loop msgs EmptyString
  end.

(** The failure markers of line 47, tested on [str(e).lower()]. *)
Definition non_retryable (msg : string) : bool :=
  Py.contains "403" msg || Py.contains "leaked" msg
  || Py.contains "invalid" msg || Py.contains "permission" msg.

(** The loop [for attempt in range(1, retries + 1)] of lines 39-59.
    [generate_content n] is what the [n]-th call (counting from 0) of the
    model does; [calls] is the number of calls made so far. *)
Fixpoint retry_loop (generate_content : nat -> outcome) (conversation : string)
    (retries : Z) (attempts : list Z) (backoff : Z) (calls : nat)
    : ret * list event :=
  match attempts with
  | [] => (RetNone, [])
  | attempt :: rest =>
      match generate_content calls with
      | Ok text => (RetText (Py.strip text), [ECall conversation])
      | Fail e =>
          let msg := Py.lower (exc_msg e) in
          if non_retryable msg then
            (Raise (runtime_error ("Generative API error: " ++ exc_msg e)),
             [ECall conversation])
          else if (attempt <? retries)%Z then
            let '(r, tr) :=
              retry_loop generate_content conversation retries rest
                (Z.min (backoff * 2) 10) (S calls) in
            (r, ECall conversation :: ESleep backoff :: tr)
          else
            (Raise (runtime_error ("Generative API failed after "
                                   ++ Py.str_int retries ++ " attempts: " ++ exc_msg e)),
             [ECall conversation])
      end
  end.

(** The retry controller: [backoff = 1] and the loop. *)
Definition generate_with_retries (generate_content : nat -> outcome)
    (conversation : string) (retries : Z) : ret * list event :=
  retry_loop generate_content conversation retries (py_range 1 (retries + 1)) 1 0.

(** [chat_with_gemini(history, retries)].  Building
    [genai.GenerativeModel(MODEL_NAME)] does not contact the service and is
    taken not to fail. *)
Definition chat_with_gemini (generate_content : nat -> outcome) (history : json)
    (retries : Z) : ret * list event :=
  match build_conversation history with
  | inl e => (Raise e, [])
  | inr conversation => generate_with_retries generate_content conversation retries
  end.

(** What the Flask view hands back: a response, or an exception that
    leaves the view function. *)
Inductive http_result : Type :=
| Response (status : Z) (body : json)
| Unhandled (e : exc).

(** The request body as [request.get_json()] sees it. *)
Inductive request_body : Type :=
| JsonBody (j : json)            (* Content-Type application/json, body decodes *)
| NotJsonContentType             (* any other Content-Type *)
| UndecodableJson.               (* application/json, body does not decode *)

(** Werkzeug's [on_json_loading_failure] raises 415 when the Content-Type
    is not JSON; Flask (not in debug mode) re-raises a decoding failure
    as a plain 400 with the default description. *)
Definition unsupported_media_type : exc :=
  mk_exc "UnsupportedMediaType"
    ("415 Unsupported Media Type: Did not attempt to load JSON data because "
     ++ "the request Content-Type was not 'application/json'.").

Definition bad_request : exc :=
  mk_exc "BadRequest"
    ("400 Bad Request: The browser (or proxy) sent a request that this "
     ++ "server could not understand.").

(** [request.get_json()]. *)
Definition get_json (body : request_body) : exc + json :=
  match body with
  | JsonBody j => inr j
  | NotJsonContentType => inl unsupported_media_type
  | UndecodableJson => inl bad_request
  end.

Definition error_response (e : exc) : http_result :=
  Response 500 (JObj [("error", JStr "Internal server error");
                      ("detail", JStr (exc_msg e))]).

(** [handle_submit()] on a request with body [body]. *)
Definition handle_submit (generate_content : nat -> outcome) (body : request_body)
    : http_result * list event :=
  match get_json body with
  | inl e => (Unhandled e, [])
  | inr data =>
      match py_get "history" (JArr []) data with
      | inl e => (Unhandled e, [])
      | inr history =>
          (* try: *)
          match py_len history with
          | inl e => (error_response e, [])
          | inr _ =>
              let '(r, tr) := chat_with_gemini generate_content history 3 in
              (match r with
               | RetText s => Response 200 (JObj [("response", JStr s)])
               | RetNone => Response 200 (JObj [("response", JNull)])
               | Raise e => error_response e
               end, tr)
          end
      end
  end.

End ServiceA.

(* ------------------------------------------------------------------ *)
(** * Service B (src/charan.py)                                         *)
(* ------------------------------------------------------------------ *)

Module ServiceB.

(** A row of [chatbot_responses (id INTEGER PRIMARY KEY AUTOINCREMENT,
    question TEXT NOT NULL, response TEXT NOT NULL)]; the table is the
    list of its rows in [id] order.  The table has no UNIQUE constraint. *)
Record row : Type := mk_row { question : string; response : string }.

Definition table := list row.

(** [init_db()] on a fresh file: the table exists and is empty. *)
Definition init_db : table := [].

(** [SELECT response FROM chatbot_responses WHERE question = ?] followed
    by [fetchone()]: the first matching row of the scan, compared with the
    BINARY collation (byte equality). *)
Fixpoint select_response (rows : table) (q : string) : option string :=
  match rows with
  | [] => None
  | r :: rest =>
      if String.eqb (question r) q then Some (response r) else select_response rest q
  end.

(** [chat_with_gemini(prompt)] of charan.py: one call, no retry. *)
Definition chat_with_gemini (generate_content : outcome) (prompt : string)
    : (exc + string) * list event :=
  (match generate_content with
   | Ok text => inr (Py.strip text)
   | Fail e => inl e
   end, [ECall prompt]).

(** [get_response()] for [request.json['message'] = user_input]:
    the answer (or the exception leaving the view), the table after the
    request, and the calls made to the model.  On a raise between the
    SELECT and the INSERT nothing is inserted or committed. *)
Definition get_response (generate_content : outcome) (rows : table) (user_input : string)
    : (exc + string) * table * list event :=
  match select_response rows user_input with
  | Some bot_response => (inr bot_response, rows, [])
  | None =>
      let '(res, tr) := chat_with_gemini generate_content user_input in
      match res with
      | inl e => (inl e, rows, tr)
      | inr bot_response =>
          (inr bot_response, (rows ++ [mk_row user_input bot_response])%list, tr)
      end
  end.

(** Requests served one at a time: each is the message and what the
    model would do if it were called for it. *)
Fixpoint run_requests (rows : table) (reqs : list (string * outcome)) : table :=
  match reqs with
  | [] => rows
  | (q, o) :: rest =>
      let '(_, rows', _) := get_response o rows q in run_requests rows' rest
  end.

(** [init_db()] when the service starts on a file that may already hold
    the table: [CREATE TABLE IF NOT EXISTS] keeps an existing table and
    its rows. *)
Definition create_table_if_not_exists (existing : option table) : table :=
  match existing with
  | Some rows => rows
  | None => []
  end.

(** Requests served one at a time, with the calls made to the model. *)
Fixpoint run_requests_trace (rows : table) (reqs : list (string * outcome))
    : table * list event :=
  match reqs with
  | [] => (rows, [])
  | (q, o) :: rest =>
      let '(_, rows', tr) := get_response o rows q in
      let '(final, tr') := run_requests_trace rows' rest in
      (final, (tr ++ tr')%list)
  end.

End ServiceB.

(* ------------------------------------------------------------------ *)
(** * Start-up configuration of Service A (src/app.py, module level)    *)
(* ------------------------------------------------------------------ *)

Module AppConfig.

(** [os.environ] once [load_dotenv()] has run: the value of each
    variable that is set. *)
Definition environ : Type := string -> option string.

(** Truth value of a [str] or [None]: only a non-empty str is true. *)
Definition truthy (v : option string) : bool :=
  match v with
  | Some s => negb (String.eqb s EmptyString)
  | None => false
  end.

(** Python's [a or b]. *)
Definition py_or (a b : option string) : option string :=
  if truthy a then a else b.

Definition key_missing_msg : string :=
  "GENAI API key not set. Please set GENAI_API_KEY in the environment or in a .env file.".

(** Lines 13-17:
      API_KEY = os.environ.get("GENAI_API_KEY") or os.environ.get("GOOGLE_API_KEY")
                or os.environ.get("API_KEY")
      if not API_KEY: raise RuntimeError(...) *)
Definition load_api_key (env : environ) : exc + string :=
  let API_KEY := py_or (py_or (env "GENAI_API_KEY") (env "GOOGLE_API_KEY")) (env "API_KEY") in
  match API_KEY with
  | Some k => if truthy API_KEY then inr k else inl (runtime_error key_missing_msg)
  | None => inl (runtime_error key_missing_msg)
  end.

(** Line 21: MODEL_NAME = os.environ.get("GENAI_MODEL") or os.environ.get("MODEL")
                          or "gemini-2.5-flash" *)
Definition MODEL_NAME (env : environ) : option string :=
  py_or (py_or (env "GENAI_MODEL") (env "MODEL")) (Some "gemini-2.5-flash").

(** [int(s)] for a str, base 10: surrounding whitespace, an optional
    sign, then decimal digits with single underscores between digits
    (below code point 256 the only decimal digits are 0-9). *)
Definition is_digit (c : ascii) : bool :=
  let n := nat_of_ascii c in ((48 <=? n) && (n <=? 57))%nat.

Definition digit_val (c : ascii) : N := N.of_nat (nat_of_ascii c - 48).

Fixpoint digits_after (s : string) (acc : N) : option N :=
  match s with
  | EmptyString => Some acc
  | String c rest =>
      if is_digit c then digits_after rest (acc * 10 + digit_val c)%N
      else if Ascii.eqb c "_"%char then
        match rest with
        | String c' rest' =>
            if is_digit c' then digits_after rest' (acc * 10 + digit_val c')%N else None
        | EmptyString => None
        end
      else None
  end.

Definition parse_unsigned (s : string) : option N :=
  match s with
  | String c rest => if is_digit c then digits_after rest (digit_val c) else None
  | EmptyString => None
  end.

Definition py_int (s : string) : exc + Z :=
  let t := Py.strip s in
  let r :=
    match t with
    | String c rest =>
        if Ascii.eqb c "-"%char then option_map (fun n => Z.opp (Z.of_N n)) (parse_unsigned rest)
        else if Ascii.eqb c "+"%char then option_map Z.of_N (parse_unsigned rest)
        else option_map Z.of_N (parse_unsigned t)
    | EmptyString => None
    end in
  match r with
  | Some z => inr z
  | None => inl (mk_exc "ValueError"
                   ("invalid literal for int() with base 10: " ++ Py.repr_str s))
  end.

(** Line 78: port = int(os.environ.get("PORT", 10000)). *)
Definition port (env : environ) : exc + Z :=
  match env "PORT" with
  | None => inr 10000%Z
  | Some s => py_int s
  end.

End AppConfig.

(* ================================================================== *)
(** * Properties of Service A                                           *)
(* ================================================================== *)

Module ServiceAProofs.
Import ServiceA.

(** The failure markers as the specification lists them, matched
    case-insensitively against the failure message. *)
Definition markers : list string := ["403"; "leaked"; "invalid"; "permission"].

Definition has_marker (m : string) : bool :=
  existsb (fun mk => Py.contains mk (Py.lower m)) markers.

(** A transient failure: a raise whose message carries no marker. *)
Definition transient (o : outcome) : bool :=
  match o with
  | Ok _ => false
  | Fail e => negb (has_marker (exc_msg e))
  end.

(** The backoff before retry number [j + 1]: min(2^j, 10). *)
Definition backoff_at (j : nat) : Z := Z.min (2 ^ Z.of_nat j) 10.

(** Attempts [k .. k+d-1] failed transiently: each call is followed by
    its sleep. *)
Definition retried_calls (c : string) (k d : nat) : list event :=
  flat_map (fun j => [ECall c; ESleep (backoff_at j)]) (seq k d).

Definition nonretryable_exc (m : string) : exc :=
  runtime_error ("Generative API error: " ++ m).

Definition exhausted_exc (retries : Z) (m : string) : exc :=
  runtime_error ("Generative API failed after " ++ Py.str_int retries
                 ++ " attempts: " ++ m).

(** How a caller tells the failures apart, from [str(e)]. *)
Inductive failure_kind : Type :=
| NonRetryableUpstream
| RetriesExhausted
| OtherFailure.

Definition classify (e : exc) : failure_kind :=
  if String.prefix "Generative API failed after " (exc_msg e) then RetriesExhausted
  else if String.prefix "Generative API error: " (exc_msg e) then NonRetryableUpstream
  else OtherFailure.

(** What the attempt that ends the loop returns. *)
Definition stop_result (retries : Z) (o : outcome) : ret :=
  match o with
  | Ok t => RetText (Py.strip t)
  | Fail e =>
      if has_marker (exc_msg e) then Raise (nonretryable_exc (exc_msg e))
      else Raise (exhausted_exc retries (exc_msg e))
  end.

Definition att (i : nat) : Z := (1 + Z.of_nat i)%Z.

(** A turn of the conversation as the specification sees it. *)
Record turn : Type := mk_turn { role : string; content : string }.

Definition turn_json (t : turn) : json :=
  JObj [("role", JStr (role t)); ("content", JStr (content t))].

Definition render_spec (t : turn) : string :=
  (if String.eqb (role t) "user" then "You: " else "Bot: ") ++ content t ++ newline.

(* ---------------------------------------------------------------- *)

Lemma non_retryable_has_marker (m : string) :
  non_retryable (Py.lower m) = has_marker m.
Proof.
  unfold non_retryable, has_marker, markers; simpl.
  now rewrite !orb_assoc, orb_false_r.
Qed.

Lemma py_range_1 (retries : Z) :
  py_range 1 (retries + 1) = map att (seq 0 (Z.to_nat retries)).
Proof.
  unfold py_range, att. now replace (retries + 1 - 1)%Z with retries by lia.
Qed.

Lemma backoff_at_0 : backoff_at 0 = 1%Z.
Proof. reflexivity. Qed.

Lemma backoff_step (j : nat) : Z.min (backoff_at j * 2) 10 = backoff_at (S j).
Proof.
  unfold backoff_at. rewrite Nat2Z.inj_succ, Z.pow_succ_r by lia.
  pose proof (Z.pow_pos_nonneg 2 (Z.of_nat j)). lia.
Qed.

Lemma retried_calls_succ (c : string) (k d : nat) :
  retried_calls c k (S d) = ([ECall c; ESleep (backoff_at k)] ++ retried_calls c (S k) d)%list.
Proof. reflexivity. Qed.

Lemma count_retried_calls (c : string) (k d : nat) :
  count_calls (retried_calls c k d ++ [ECall c])%list = S d.
Proof.
  revert k; induction d as [|d IH]; intros k; [reflexivity|].
  rewrite retried_calls_succ. specialize (IH (S k)).
  unfold count_calls in *. simpl. now rewrite IH.
Qed.

Lemma transient_fail (o : outcome) :
  transient o = true ->
  exists e, o = Fail e /\ non_retryable (Py.lower (exc_msg e)) = false.
Proof.
  destruct o as [t|e]; simpl; [discriminate|].
  intros H. exists e. split; [reflexivity|].
  rewrite non_retryable_has_marker. now destruct (has_marker (exc_msg e)).
Qed.

(** Transient failures before the stopping attempt: each adds a call and
    a sleep, and the backoff doubles up to 10. *)
Lemma loop_skip (gc : nat -> outcome) (c : string) (retries : Z) :
  forall d k n,
  retries = Z.of_nat (k + n) -> (d < n)%nat ->
  (forall j, (k <= j < k + d)%nat -> transient (gc j) = true) ->
  retry_loop gc c retries (map att (seq k n)) (backoff_at k) k =
  let '(r, tr) :=
    retry_loop gc c retries (map att (seq (k + d) (n - d))) (backoff_at (k + d)) (k + d) in
  (r, (retried_calls c k d ++ tr)%list).
Proof.
  induction d as [|d IH]; intros k n Hr Hd Ht.
  - rewrite Nat.add_0_r, Nat.sub_0_r.
    destruct (retry_loop _ _ _ _ _ _); reflexivity.
  - destruct n as [|n]; [lia|].
    destruct (transient_fail (gc k)) as (e & He & Hm); [apply Ht; lia|].
    simpl seq. simpl map. simpl retry_loop.
    rewrite He, Hm. unfold att at 1.
    replace (1 + Z.of_nat k <? retries)%Z with true by (symmetry; apply Z.ltb_lt; lia).
    rewrite backoff_step.
    rewrite (IH (S k) n) by (lia || (intros; apply Ht; lia)).
    replace (S k + d)%nat with (k + S d)%nat by lia.
    replace (n - d)%nat with (S n - S d)%nat by lia.
    destruct (retry_loop _ _ _ _ _ _). reflexivity.
Qed.

(** The attempt that ends the loop. *)
Lemma loop_stop (gc : nat -> outcome) (c : string) (retries : Z) (m r : nat) :
  retries = Z.of_nat (m + S r) ->
  (transient (gc m) = false \/ r = 0%nat) ->
  retry_loop gc c retries (map att (seq m (S r))) (backoff_at m) m =
  (stop_result retries (gc m), [ECall c]).
Proof.
  intros Hr Hstop. simpl seq. simpl map. simpl retry_loop.
  unfold stop_result, transient in *.
  destruct (gc m) as [t|e]; [reflexivity|].
  rewrite non_retryable_has_marker.
  destruct (has_marker (exc_msg e)); [reflexivity|].
  destruct Hstop as [Hstop|Hstop]; [discriminate|subst r].
  unfold att. replace (1 + Z.of_nat m <? retries)%Z with false
    by (symmetry; apply Z.ltb_ge; lia).
  reflexivity.
Qed.

Lemma first_stop (f : nat -> bool) :
  forall n k, (0 < n)%nat ->
  exists d, (d < n)%nat /\ (forall j, (k <= j < k + d)%nat -> f j = true) /\
            (f (k + d) = false \/ d = n - 1)%nat.
Proof.
  induction n as [|n IH]; intros k Hn; [lia|].
  destruct n as [|n].
  - exists 0%nat. split; [lia|]. split; [intros; lia|]. right; lia.
  - destruct (f k) eqn:Hk.
    + destruct (IH (S k)) as (d & Hd & Hj & Hs); [lia|].
      exists (S d). split; [lia|]. split.
      * intros j Hj'. destruct (Nat.eq_dec j k) as [->|]; [assumption|]. apply Hj; lia.
      * replace (k + S d)%nat with (S k + d)%nat by lia. destruct Hs; [left|right]; lia || assumption.
    + exists 0%nat. split; [lia|]. split; [intros; lia|]. left. now rewrite Nat.add_0_r.
Qed.

(** The whole run of the controller: the calls that failed transiently,
    each followed by its sleep, then the call that ends it. *)
Lemma controller_shape (gc : nat -> outcome) (c : string) (retries : Z) :
  (retries <= 0 /\ generate_with_retries gc c retries = (RetNone, []))%Z \/
  (exists d,
     Z.of_nat d < retries /\
     (forall j, (j < d)%nat -> transient (gc j) = true) /\
     (transient (gc d) = false \/ Z.of_nat d + 1 = retries) /\
     generate_with_retries gc c retries =
       (stop_result retries (gc d), (retried_calls c 0 d ++ [ECall c])%list))%Z.
Proof.
  unfold generate_with_retries. rewrite py_range_1.
  destruct (Z_le_gt_dec retries 0) as [Hle|Hgt].
  - left. split; [assumption|].
    replace (Z.to_nat retries) with 0%nat by lia. reflexivity.
  - right. remember (Z.to_nat retries) as n eqn:Hn.
    destruct (first_stop (fun j => transient (gc j)) n 0) as (d & Hd & Hj & Hs); [lia|].
    exists d. simpl in Hs.
    split; [lia|]. split; [intros; apply Hj; lia|]. split.
    + destruct Hs; [left; assumption|right; lia].
    + rewrite <- backoff_at_0.
      rewrite (loop_skip gc c retries d 0 n) by (lia || (intros; apply Hj; lia)).
      simpl plus. destruct (n - d)%nat as [|r] eqn:Hnd; [lia|].
      rewrite (loop_stop gc c retries d r) by (lia || (destruct Hs; [left|right]; lia || assumption)).
      reflexivity.
Qed.

Lemma prefix_app (s t : string) : String.prefix s (s ++ t) = true.
Proof.
  induction s as [|a s IH]; [destruct t; reflexivity|].
  simpl. destruct (ascii_dec a a); [exact IH|contradiction].
Qed.

Lemma classify_nonretryable (m : string) :
  classify (nonretryable_exc m) = NonRetryableUpstream.
Proof.
  unfold classify.
  change (exc_msg (nonretryable_exc m)) with ("Generative API error: " ++ m).
  assert (Hf : String.prefix "Generative API failed after "
                 ("Generative API error: " ++ m) = false) by reflexivity.
  now rewrite Hf, prefix_app.
Qed.

Lemma classify_exhausted (retries : Z) (m : string) :
  classify (exhausted_exc retries m) = RetriesExhausted.
Proof.
  unfold classify.
  change (exc_msg (exhausted_exc retries m)) with
    ("Generative API failed after " ++ (Py.str_int retries ++ " attempts: " ++ m)).
  now rewrite prefix_app.
Qed.


Lemma str_app_assoc (a b c : string) : ((a ++ b) ++ c) = (a ++ (b ++ c)).
Proof. induction a as [|x a IH]; simpl; congruence. Qed.

Lemma str_app_empty_r (a : string) : (a ++ EmptyString) = a.
Proof. induction a as [|x a IH]; simpl; congruence. Qed.

Lemma render_turn_json (t : turn) : render_msg (turn_json t) = inr (render_spec t).
Proof. destruct t as [r c]. reflexivity. Qed.

Lemma build_loop_turns (ts : list turn) :
  forall acc, build_loop (map turn_json ts) acc =
              inr (acc ++ fold_right String.append EmptyString (map render_spec ts)).
Proof.
  induction ts as [|t ts IH]; intros acc; cbn [map fold_right build_loop].
  - now rewrite str_app_empty_r.
  - rewrite render_turn_json, IH. now rewrite str_app_assoc.
Qed.

(** Claim C1.  With the default attempt budget 3, when the model fails
    twice with a transient (marker-free) failure and then answers,
    [chat_with_gemini] calls the model exactly three times, sleeps 1 then
    2 time units before the second and third attempts, and returns the
    third answer with surrounding whitespace stripped. *)
Theorem retry_success_third_attempt (gc : nat -> outcome) (history : json)
    (c t : string) (e1 e2 : exc) :
  build_conversation history = inr c ->
  gc 0%nat = Fail e1 -> has_marker (exc_msg e1) = false ->
  gc 1%nat = Fail e2 -> has_marker (exc_msg e2) = false ->
  gc 2%nat = Ok t ->
  chat_with_gemini gc history 3 =
    (RetText (Py.strip t), [ECall c; ESleep 1; ECall c; ESleep 2; ECall c]).
Proof.
  intros Hb H0 Hm0 H1 Hm1 H2. unfold chat_with_gemini. rewrite Hb.
  destruct (controller_shape gc c 3) as [[Hle _]|(d & Hd & Hj & Hs & ->)]; [lia|].
  assert (d = 2)%nat as ->.
  { destruct d as [|[|[|d]]]; [| | reflexivity | lia];
      destruct Hs as [Hs|Hs]; try lia; simpl in Hs;
      [rewrite H0 in Hs | rewrite H1 in Hs]; simpl in Hs;
      [rewrite Hm0 in Hs | rewrite Hm1 in Hs]; discriminate. }
  rewrite H2. reflexivity.
Qed.

(** Claim C2.  If the attempts before attempt [k] (counting from 0)
    failed transiently and attempt [k], within the budget, fails with a
    message carrying one of the markers 403, leaked, invalid, permission
    (case-insensitively), the controller raises the non-retryable error
    right after that call: no sleep follows it and no further call is
    made, so the model is called exactly [k + 1] times. *)
Theorem non_retryable_aborts (gc : nat -> outcome) (c : string) (retries : Z)
    (k : nat) (e : exc) :
  (Z.of_nat k < retries)%Z ->
  (forall j, (j < k)%nat -> transient (gc j) = true) ->
  gc k = Fail e -> has_marker (exc_msg e) = true ->
  generate_with_retries gc c retries =
    (Raise (nonretryable_exc (exc_msg e)), (retried_calls c 0 k ++ [ECall c])%list)
  /\ count_calls (snd (generate_with_retries gc c retries)) = S k.
Proof.
  intros Hk Hpre He Hm.
  destruct (controller_shape gc c retries) as [[Hle _]|(d & Hd & Hj & Hs & ->)]; [lia|].
  assert (Htk : transient (gc k) = false) by (rewrite He; simpl; now rewrite Hm).
  assert (d = k) as ->.
  { destruct (Nat.lt_trichotomy d k) as [Hlt|[Heq|Hgt]]; [|exact Heq|].
    - destruct Hs as [Hs|Hs]; [|lia]. rewrite (Hpre d Hlt) in Hs. discriminate.
    - rewrite (Hj k Hgt) in Htk. discriminate. }
  rewrite He. unfold stop_result. rewrite Hm. split; [reflexivity|].
  apply count_retried_calls.
Qed.

(** Claim C3.  For every prompt and every attempt budget of at least one
    (the default is 3), when every attempt fails transiently the
    controller calls the model exactly [retries] times and raises the
    retries-exhausted error, which carries the last failure's message; a
    caller tells it apart from every non-retryable error by its message. *)
Theorem retries_exhausted_error (gc : nat -> outcome) (c : string) (retries : Z) :
  (1 <= retries)%Z ->
  (forall j, (Z.of_nat j < retries)%Z -> transient (gc j) = true) ->
  exists e,
    gc (Z.to_nat retries - 1)%nat = Fail e /\
    fst (generate_with_retries gc c retries) = Raise (exhausted_exc retries (exc_msg e)) /\
    count_calls (snd (generate_with_retries gc c retries)) = Z.to_nat retries /\
    classify (exhausted_exc retries (exc_msg e)) = RetriesExhausted /\
    (forall m, classify (nonretryable_exc m) = NonRetryableUpstream) /\
    (forall m, exhausted_exc retries (exc_msg e) <> nonretryable_exc m).
Proof.
  intros Hr Hall.
  destruct (controller_shape gc c retries) as [[Hle _]|(d & Hd & Hj & Hs & ->)]; [lia|].
  assert (Hlast : (Z.of_nat d + 1 = retries)%Z).
  { destruct Hs as [Hs|Hs]; [|exact Hs]. rewrite (Hall d Hd) in Hs. discriminate. }
  destruct (transient_fail (gc d)) as (e & He & Hm); [apply Hall; exact Hd|].
  rewrite non_retryable_has_marker in Hm.
  exists e.
  replace (Z.to_nat retries - 1)%nat with d by lia.
  split; [exact He|]. split.
  { simpl. rewrite He. unfold stop_result. now rewrite Hm. }
  split.
  { simpl. rewrite count_retried_calls. lia. }
  split; [apply classify_exhausted|]. split; [apply classify_nonretryable|].
  intros m Heq. apply (f_equal classify) in Heq.
  rewrite classify_exhausted, classify_nonretryable in Heq. discriminate.
Qed.

(** Claim C4.  For every attempt budget, the run of the controller is:
    the calls [0 .. d-1], each of which failed transiently and is
    followed by a sleep, the [j]-th of which (retry number [j + 1])
    lasts min(2^j, 10); then the call [d] that ends it and after which
    nothing follows: it succeeded, failed with a marker, or was the last
    attempt of the budget.  With a budget of 0 or less nothing happens. *)
Theorem backoff_schedule (gc : nat -> outcome) (c : string) (retries : Z) :
  let '(_, tr) := generate_with_retries gc c retries in
  (retries <= 0 /\ tr = [])%Z \/
  (exists d,
     Z.of_nat d < retries /\
     (forall j, (j < d)%nat -> transient (gc j) = true) /\
     (transient (gc d) = false \/ Z.of_nat d + 1 = retries) /\
     tr = (flat_map (fun j => [ECall c; ESleep (Z.min (2 ^ Z.of_nat j) 10)]) (seq 0 d)
           ++ [ECall c])%list)%Z.
Proof.
  destruct (controller_shape gc c retries) as [[Hle ->]|(d & Hd & Hj & Hs & ->)].
  - left. now split.
  - right. exists d. repeat split; assumption.
Qed.



(** Claim C9.  The prompt is the concatenation, in order, of one line
    per turn: "You: <content>" for a turn whose role is "user" and
    "Bot: <content>" for any other role, each ended by a newline; the
    history [user: hi; bot: hello] gives "You: hi\nBot: hello\n". *)
Theorem prompt_assembly (turns : list turn) :
  build_conversation (JArr (map turn_json turns)) =
    inr (fold_right String.append EmptyString (map render_spec turns))
  /\ build_conversation (JArr [turn_json (mk_turn "user" "hi");
                               turn_json (mk_turn "bot" "hello")]) =
     inr ("You: hi" ++ newline ++ "Bot: hello" ++ newline).
Proof.
  split.
  - unfold build_conversation. simpl py_iter. apply build_loop_turns.
  - reflexivity.
Qed.

(** Witness of C1: two time-outs, then an answer. *)
Lemma retry_success_third_attempt_witness :
  build_conversation (JArr [turn_json (mk_turn "user" "hi")]) = inr ("You: hi" ++ newline)
  /\ chat_with_gemini
       (fun n => match n with
                 | 0%nat => Fail (mk_exc "TimeoutError" "deadline exceeded")
                 | 1%nat => Fail (mk_exc "ServiceUnavailable" "503 model overloaded")
                 | _ => Ok " Hello! "
                 end)
       (JArr [turn_json (mk_turn "user" "hi")]) 3 =
     (RetText (Py.strip " Hello! "),
      [ECall ("You: hi" ++ newline); ESleep 1; ECall ("You: hi" ++ newline); ESleep 2;
       ECall ("You: hi" ++ newline)]).
Proof.
  split; [reflexivity|].
  apply (retry_success_third_attempt _ _ ("You: hi" ++ newline) " Hello! "
           (mk_exc "TimeoutError" "deadline exceeded")
           (mk_exc "ServiceUnavailable" "503 model overloaded")); reflexivity.
Defined.

(** Witness of C2: a leaked-key 403 on the first call. *)
Lemma non_retryable_aborts_witness :
  has_marker "403 Your API key was reported as leaked." = true
  /\ generate_with_retries
       (fun _ => Fail (mk_exc "PermissionDenied" "403 Your API key was reported as leaked."))
       "You: hi" 3 =
     (Raise (nonretryable_exc "403 Your API key was reported as leaked."),
      (retried_calls "You: hi" 0 0 ++ [ECall "You: hi"])%list)
  /\ count_calls (snd (generate_with_retries
       (fun _ => Fail (mk_exc "PermissionDenied" "403 Your API key was reported as leaked."))
       "You: hi" 3)) = 1%nat.
Proof.
  split; [reflexivity|].
  apply (non_retryable_aborts _ "You: hi" 3 0
           (mk_exc "PermissionDenied" "403 Your API key was reported as leaked."));
    [lia | intros; lia | reflexivity | reflexivity].
Defined.

(** Witness of C3: a model that is always overloaded, budget 3. *)
Lemma retries_exhausted_error_witness :
  (1 <= 3)%Z /\
  exists e,
    Fail (mk_exc "ServiceUnavailable" "503 overloaded") = Fail e /\
    fst (generate_with_retries (fun _ => Fail (mk_exc "ServiceUnavailable" "503 overloaded"))
           "You: hi" 3) = Raise (exhausted_exc 3 (exc_msg e)) /\
    count_calls (snd (generate_with_retries
                        (fun _ => Fail (mk_exc "ServiceUnavailable" "503 overloaded"))
                        "You: hi" 3)) = 3%nat /\
    classify (exhausted_exc 3 (exc_msg e)) = RetriesExhausted /\
    (forall m, classify (nonretryable_exc m) = NonRetryableUpstream) /\
    (forall m, exhausted_exc 3 (exc_msg e) <> nonretryable_exc m).
Proof.
  split; [lia|].
  apply (retries_exhausted_error (fun _ => Fail (mk_exc "ServiceUnavailable" "503 overloaded"))
           "You: hi" 3); [lia | intros; reflexivity].
Defined.

End ServiceAProofs.

(* ================================================================== *)
(** * Properties of Service B                                           *)
(* ================================================================== *)

Module ServiceBProofs.
Import ServiceB.

(** The table holds an entry for question [q]. *)
Definition has_entry (rows : table) (q : string) : Prop :=
  exists r, In (mk_row q r) rows.

Lemma select_response_in (rows : table) (q r : string) :
  select_response rows q = Some r -> In (mk_row q r) rows.
Proof.
  induction rows as [|[q' r'] rows IH]; simpl; [discriminate|].
  destruct (String.eqb_spec q' q) as [->|_].
  - intros [= ->]. now left.
  - intros H. right. now apply IH.
Qed.

Lemma select_response_none (rows : table) (q : string) :
  select_response rows q = None <-> ~ has_entry rows q.
Proof.
  unfold has_entry. induction rows as [|[q' r'] rows IH]; simpl.
  - split; [intros _ [r []]|reflexivity].
  - destruct (String.eqb_spec q' q) as [->|Hne].
    + split; [discriminate|]. intros H. exfalso. apply H. exists r'. now left.
    + rewrite IH. split.
      * intros H [r [Hr|Hr]]; [congruence|]. apply H. now exists r.
      * intros H [r Hr]. apply H. exists r. now right.
Qed.

Lemma select_response_some (rows : table) (q : string) :
  has_entry rows q -> exists r, select_response rows q = Some r.
Proof.
  intros H. destruct (select_response rows q) as [r|] eqn:E; [now exists r|].
  apply select_response_none in E. contradiction.
Qed.

(** One request either leaves the table alone or appends one row for a
    question the table did not hold. *)
Lemma get_response_table (o : outcome) (rows : table) (q : string) :
  let '(_, rows', _) := get_response o rows q in
  rows' = rows \/ (exists r, rows' = (rows ++ [mk_row q r])%list /\ ~ has_entry rows q).
Proof.
  unfold get_response. destruct (select_response rows q) as [r|] eqn:E; [now left|].
  apply select_response_none in E.
  unfold chat_with_gemini. destruct o as [t|e]; [right|left; reflexivity].
  exists (Py.strip t). now split.
Qed.

Lemma run_requests_app (rows : table) (a b : list (string * outcome)) :
  run_requests rows (a ++ b) = run_requests (run_requests rows a) b.
Proof.
  revert rows; induction a as [|[q o] a IH]; intros rows; simpl; [reflexivity|].
  destruct (get_response o rows q) as [[res rows'] tr]. apply IH.
Qed.

(** Later requests only append rows, each for a question not yet held. *)
Lemma run_requests_extends (reqs : list (string * outcome)) :
  forall rows, NoDup (map question rows) ->
  NoDup (map question (run_requests rows reqs)) /\
  exists ext, run_requests rows reqs = (rows ++ ext)%list.
Proof.
  induction reqs as [|[q o] reqs IH]; intros rows Hnd; simpl.
  - split; [assumption|]. exists []. now rewrite app_nil_r.
  - pose proof (get_response_table o rows q) as Ht.
    destruct (get_response o rows q) as [[res rows'] tr].
    assert (Hnd' : NoDup (map question rows') /\ exists ext, rows' = (rows ++ ext)%list).
    { destruct Ht as [->|(r & -> & Hnot)].
      - split; [assumption|]. exists []. now rewrite app_nil_r.
      - split; [|now exists [mk_row q r]].
        rewrite map_app. apply NoDup_app; [assumption|repeat constructor; simpl; tauto|].
        intros a Ha [Ha'|[]]. simpl in Ha'. subst a.
        apply in_map_iff in Ha as ([q' r'] & Hq & Hin). simpl in Hq. subst q'.
        apply Hnot. now exists r'. }
    destruct Hnd' as [Hnd' [ext1 ->]].
    destruct (IH _ Hnd') as [Hnd'' [ext2 Heq]].
    split; [assumption|]. exists (ext1 ++ ext2)%list. now rewrite Heq, app_assoc.
Qed.

(** Claim C5.  If the table holds an entry for the exact question, the
    handler answers with a stored response for it, leaves the table
    unchanged and does not call the model.  Otherwise it calls the model
    exactly once; when the call answers, the pair (question, answer) is
    appended and the answer returned (the answer of [chat_with_gemini],
    i.e. the model's text stripped); when it raises, the failure leaves
    the handler and nothing is stored. *)
Theorem cache_hit_miss (o : outcome) (rows : table) (q : string) :
  (has_entry rows q ->
   exists r, In (mk_row q r) rows /\ get_response o rows q = (inr r, rows, [])) /\
  (~ has_entry rows q ->
   let '(res, rows', tr) := get_response o rows q in
   tr = [ECall q] /\
   (forall t, o = Ok t ->
      res = inr (Py.strip t) /\ rows' = (rows ++ [mk_row q (Py.strip t)])%list) /\
   (forall e, o = Fail e -> res = inl e /\ rows' = rows)).
Proof.
  split.
  - intros H. destruct (select_response_some rows q H) as [r Hr].
    exists r. split; [now apply select_response_in|].
    unfold get_response. now rewrite Hr.
  - intros H. apply select_response_none in H.
    unfold get_response. rewrite H. unfold chat_with_gemini.
    destruct o as [t|e]; simpl.
    + split; [reflexivity|]. split; [intros t' [= ->]; now split|discriminate].
    + split; [reflexivity|]. split; [discriminate|intros e' [= ->]; now split].
Qed.

Lemma select_response_filter (rows : table) (q : string) :
  select_response rows q = select_response (filter (fun x => String.eqb (question x) q) rows) q.
Proof.
  induction rows as [|x rows IH]; simpl; [reflexivity|].
  destruct (String.eqb (question x) q) eqn:E; simpl; rewrite ?E; [reflexivity|exact IH].
Qed.

Lemma get_response_same_select (o : outcome) (rows rows' : table) (q : string) :
  select_response rows q = select_response rows' q ->
  fst (fst (get_response o rows q)) = fst (fst (get_response o rows' q)) /\
  snd (get_response o rows q) = snd (get_response o rows' q).
Proof.
  intros H. unfold get_response. rewrite H.
  destruct (select_response rows' q); [split; reflexivity|].
  unfold chat_with_gemini. destruct o; split; reflexivity.
Qed.

Lemma select_response_split (rows : table) (q r : string) :
  select_response rows q = Some r ->
  exists pre post, rows = (pre ++ mk_row q r :: post)%list /\
                   Forall (fun x => question x <> q) pre.
Proof.
  induction rows as [|[q' r'] rows IH]; simpl; [discriminate|].
  destruct (String.eqb_spec q' q) as [->|Hne].
  - intros [= ->]. exists [], rows. split; [reflexivity|constructor].
  - intros H. destruct (IH H) as (pre & post & -> & Hpre).
    exists (mk_row q' r' :: pre), post. split; [reflexivity|]. now constructor.
Qed.

(** Claim C6.  The key is matched exactly, without trimming or
    case-folding.  What a request for [q] answers, and whether it calls
    the model, depends only on the rows whose question is byte-identical
    to [q]: dropping every other row (the row for "Q1" when the request
    is "q1", or for " q" when it is "q") changes neither.  An answer
    taken from the table is the response of the first row whose question
    is [q].  A first request for [q] calls the model once. *)
Theorem exact_match_keying (o : outcome) (rows : table) (q : string) :
  (fst (fst (get_response o rows q)) =
     fst (fst (get_response o (filter (fun x => String.eqb (question x) q) rows) q)) /\
   snd (get_response o rows q) =
     snd (get_response o (filter (fun x => String.eqb (question x) q) rows) q)) /\
  (forall a, get_response o rows q = (inr a, rows, []) ->
     exists pre post, rows = (pre ++ mk_row q a :: post)%list /\
                      Forall (fun x => question x <> q) pre) /\
  (~ has_entry rows q -> snd (get_response o rows q) = [ECall q]).
Proof.
  split; [|split].
  - apply get_response_same_select, select_response_filter.
  - intros a H. apply select_response_split. unfold get_response in H.
    destruct (select_response rows q) as [r|]; [congruence|].
    unfold chat_with_gemini in H. destruct o; discriminate.
  - intros Hnot. apply select_response_none in Hnot.
    unfold get_response. rewrite Hnot. destruct o; reflexivity.
Qed.

(** Claim C7.  Requests served one at a time from the empty table:
    after every request the table holds at most one entry per question,
    and every later request keeps all existing rows, in place and
    unchanged (it can only append). *)
Theorem cache_uniqueness (reqs1 reqs2 : list (string * outcome)) :
  NoDup (map question (run_requests init_db reqs1)) /\
  exists ext, run_requests init_db (reqs1 ++ reqs2) = (run_requests init_db reqs1 ++ ext)%list.
Proof.
  destruct (run_requests_extends reqs1 init_db (NoDup_nil _)) as [Hnd _].
  split; [exact Hnd|].
  rewrite run_requests_app.
  destruct (run_requests_extends reqs2 _ Hnd) as [_ Hext]. exact Hext.
Qed.

(** Claim C10.  On a miss the model's text is stored and returned with
    its surrounding whitespace stripped, while the question is stored
    exactly as received. *)
Theorem miss_stores_stripped (rows : table) (q t : string) :
  ~ has_entry rows q ->
  get_response (Ok t) rows q =
    (inr (Py.strip t), (rows ++ [mk_row q (Py.strip t)])%list, [ECall q]).
Proof.
  intros H. apply select_response_none in H.
  unfold get_response. now rewrite H.
Qed.

(** Witness of C5: "Q1" answered "A1" is stored, then served from the
    table. *)
Lemma cache_hit_miss_witness :
  (~ has_entry init_db "Q1" /\
   get_response (Ok "A1") init_db "Q1" = (inr "A1", [mk_row "Q1" "A1"], [ECall "Q1"])) /\
  (has_entry [mk_row "Q1" "A1"] "Q1" /\
   exists r, In (mk_row "Q1" r) [mk_row "Q1" "A1"] /\
     get_response (Ok "other") [mk_row "Q1" "A1"] "Q1" = (inr r, [mk_row "Q1" "A1"], [])).
Proof.
  split.
  - assert (Hn : ~ has_entry init_db "Q1") by (intros [r []]).
    split; [exact Hn|].
    pose proof (proj2 (cache_hit_miss (Ok "A1") init_db "Q1") Hn) as H.
    simpl in H. destruct H as (_ & Hok & _).
    destruct (Hok "A1" eq_refl) as [_ _]. reflexivity.
  - assert (Hh : has_entry [mk_row "Q1" "A1"] "Q1") by (exists "A1"; now left).
    split; [exact Hh|].
    apply (proj1 (cache_hit_miss (Ok "other") [mk_row "Q1" "A1"] "Q1") Hh).
Defined.

(** Witness of C6: "q1" after "Q1". *)
Lemma exact_match_keying_witness :
  get_response (Ok "x") [mk_row "Q1" "A1"; mk_row "q1" "a1"] "q1" =
    (inr "a1", [mk_row "Q1" "A1"; mk_row "q1" "a1"], []) /\
  (exists pre post, [mk_row "Q1" "A1"; mk_row "q1" "a1"] = (pre ++ mk_row "q1" "a1" :: post)%list /\
                    Forall (fun x => question x <> "q1") pre) /\
  snd (get_response (Ok "x") [mk_row "Q1" "A1"] "q1") = [ECall "q1"].
Proof.
  split; [reflexivity|]. split.
  - apply (proj1 (proj2 (exact_match_keying (Ok "x") [mk_row "Q1" "A1"; mk_row "q1" "a1"] "q1"))).
    reflexivity.
  - apply (proj2 (proj2 (exact_match_keying (Ok "x") [mk_row "Q1" "A1"] "q1"))).
    intros [r [Hr|[]]]. discriminate.
Defined.

(** Witness of C10. *)
Lemma miss_stores_stripped_witness :
  get_response (Ok "  A1 ") init_db " Q1" =
    (inr (Py.strip "  A1 "), [mk_row " Q1" (Py.strip "  A1 ")], [ECall " Q1"]).
Proof.
  apply (miss_stores_stripped init_db " Q1" "  A1 "). intros [r []].
Defined.

End ServiceBProofs.

(* ================================================================== *)
(** * Facts about the Python string primitives                          *)
(* ================================================================== *)

Module StringFacts.

Lemma app_assoc_s (a b c : string) : ((a ++ b) ++ c) = (a ++ (b ++ c)).
Proof. induction a as [|x a IH]; simpl; congruence. Qed.

Lemma app_empty_s (a : string) : (a ++ EmptyString) = a.
Proof. induction a as [|x a IH]; simpl; congruence. Qed.

Lemma length_app_s (a b : string) :
  String.length (a ++ b) = (String.length a + String.length b)%nat.
Proof. induction a as [|x a IH]; simpl; congruence. Qed.

(** [rev_string s EmptyString] reverses [s]. *)
Definition R (s : string) : string := Py.rev_string s EmptyString.

Lemma rev_string_acc (s acc : string) : Py.rev_string s acc = (R s ++ acc).
Proof.
  unfold R. revert acc. induction s as [|c s IH]; intros acc; simpl; [reflexivity|].
  rewrite (IH (String c acc)), (IH (String c EmptyString)), app_assoc_s. reflexivity.
Qed.

Lemma R_cons (c : ascii) (s : string) : R (String c s) = (R s ++ String c EmptyString).
Proof. unfold R at 1. simpl. apply rev_string_acc. Qed.

Lemma R_app (a b : string) : R (a ++ b) = (R b ++ R a).
Proof.
  induction a as [|c a IH]; simpl.
  - now rewrite app_empty_s.
  - rewrite !R_cons, IH. apply app_assoc_s.
Qed.

Lemma R_involutive (s : string) : R (R s) = s.
Proof.
  induction s as [|c s IH]; [reflexivity|].
  rewrite R_cons, R_app, IH. reflexivity.
Qed.

(** No leading whitespace. *)
Definition no_lead_space (s : string) : Prop :=
  match s with
  | EmptyString => True
  | String c _ => Py.is_space c = false
  end.

Lemma lstrip_no_lead (s : string) : no_lead_space (Py.lstrip s).
Proof.
  induction s as [|c s IH]; simpl; [exact I|].
  destruct (Py.is_space c) eqn:E; [exact IH|exact E].
Qed.

Lemma lstrip_suffix (s : string) : exists p, s = (p ++ Py.lstrip s).
Proof.
  induction s as [|c s IH]; simpl; [now exists EmptyString|].
  destruct (Py.is_space c).
  - destruct IH as [p Hp]. exists (String c p). simpl. now rewrite <- Hp.
  - now exists EmptyString.
Qed.

Lemma no_lead_app (a b : string) :
  a <> EmptyString -> no_lead_space (a ++ b) -> no_lead_space a.
Proof. destruct a; [congruence|]. simpl. tauto. Qed.

(** [strip] leaves no whitespace at either end. *)
Lemma strip_ends (t : string) :
  no_lead_space (Py.strip t) /\ no_lead_space (R (Py.strip t)).
Proof.
  unfold Py.strip, Py.rstrip. fold (R (Py.lstrip t)).
  set (u := Py.lstrip t). set (w := Py.lstrip (R u)). fold (R w).
  split.
  - destruct (lstrip_suffix (R u)) as [p Hp]. fold w in Hp.
    assert (Hu : u = (R w ++ R p)) by (rewrite <- R_app, <- Hp; symmetry; apply R_involutive).
    destruct (R w) as [|c r] eqn:Ew; [exact I|].
    apply (no_lead_app (String c r) (R p)); [discriminate|].
    rewrite <- Hu. apply lstrip_no_lead.
  - rewrite R_involutive. apply lstrip_no_lead.
Qed.

(** Strings without any whitespace character. *)
Fixpoint no_space (s : string) : bool :=
  match s with
  | EmptyString => true
  | String c rest => negb (Py.is_space c) && no_space rest
  end.

Lemma no_space_lstrip (s : string) : no_space s = true -> Py.lstrip s = s.
Proof.
  destruct s as [|c s]; simpl; [reflexivity|].
  intros H. apply andb_prop in H as [H _]. now destruct (Py.is_space c).
Qed.

Lemma no_space_app (a b : string) :
  no_space (a ++ b) = no_space a && no_space b.
Proof.
  induction a as [|c a IH]; simpl; [reflexivity|]. now rewrite IH, andb_assoc.
Qed.

Lemma no_space_R (s : string) : no_space (R s) = no_space s.
Proof.
  induction s as [|c s IH]; [reflexivity|].
  rewrite R_cons, no_space_app, IH. simpl.
  now rewrite andb_true_r, andb_comm.
Qed.

Lemma strip_no_space (s : string) : no_space s = true -> Py.strip s = s.
Proof.
  intros H. unfold Py.strip, Py.rstrip. rewrite (no_space_lstrip s H).
  fold (R s). rewrite no_space_lstrip by (now rewrite no_space_R).
  apply R_involutive.
Qed.

End StringFacts.

(* ================================================================== *)
(** * Properties of the start-up configuration of Service A             *)
(* ================================================================== *)

Module AppConfigProofs.
Import AppConfig StringFacts.

(** The first of the values that is a non-empty string. *)
Fixpoint first_nonempty (vs : list (option string)) : option string :=
  match vs with
  | [] => None
  | v :: rest => if truthy v then v else first_nonempty rest
  end.

Lemma digit_facts (n : N) :
  (n < 10)%N ->
  is_digit (Py.digit n) = true /\ digit_val (Py.digit n) = n /\
  Py.is_space (Py.digit n) = false /\
  Ascii.eqb (Py.digit n) "-"%char = false /\ Ascii.eqb (Py.digit n) "+"%char = false.
Proof.
  intros H.
  assert (Hn : In n (map N.of_nat (seq 0 10))).
  { apply in_map_iff. exists (N.to_nat n). split; [apply N2Nat.id|apply in_seq; lia]. }
  simpl in Hn. repeat (destruct Hn as [<- | Hn]; [repeat split; reflexivity|]). destruct Hn.
Qed.

Lemma dec_aux_app (f : nat) : forall n acc, Py.dec_aux f n acc = (Py.dec_aux f n EmptyString ++ acc).
Proof.
  induction f as [|f IH]; intros n acc; simpl; [reflexivity|].
  destruct (n <? 10)%N; [reflexivity|].
  rewrite IH, (IH _ (String _ EmptyString)), app_assoc_s. reflexivity.
Qed.

Lemma dec_aux_first (f : nat) : forall n acc,
  (n < 10 ^ N.of_nat (S f))%N ->
  exists m rest, (m < 10)%N /\ Py.dec_aux f n acc = String (Py.digit m) rest.
Proof.
  induction f as [|f IH]; intros n acc Hn; simpl.
  - exists n, acc. split; [simpl in Hn; lia|reflexivity].
  - destruct (n <? 10)%N eqn:E.
    + exists n, acc. split; [apply N.ltb_lt; exact E|reflexivity].
    + apply IH. rewrite Nat2N.inj_succ, N.pow_succ_r' in Hn.
      apply N.Div0.div_lt_upper_bound. lia.
Qed.

Lemma dec_aux_no_space (f : nat) : forall n acc,
  (n < 10 ^ N.of_nat (S f))%N -> no_space acc = true ->
  no_space (Py.dec_aux f n acc) = true.
Proof.
  induction f as [|f IH]; intros n acc Hn Hacc; simpl.
  - simpl in Hn. destruct (digit_facts n) as (_ & _ & Hs & _); [lia|].
    now rewrite Hs, Hacc.
  - destruct (n <? 10)%N eqn:E.
    + apply N.ltb_lt in E. destruct (digit_facts n E) as (_ & _ & Hs & _).
      simpl. now rewrite Hs, Hacc.
    + apply IH.
      * rewrite Nat2N.inj_succ, N.pow_succ_r' in Hn.
        apply N.Div0.div_lt_upper_bound. lia.
      * simpl. destruct (digit_facts (n mod 10)) as (_ & _ & Hs & _);
          [apply N.mod_lt; lia|]. now rewrite Hs, Hacc.
Qed.

Lemma dec_aux_parse (f : nat) : forall n acc a,
  (n < 10 ^ N.of_nat (S f))%N ->
  digits_after (Py.dec_aux f n acc) a =
  digits_after acc (a * 10 ^ N.of_nat (String.length (Py.dec_aux f n EmptyString)) + n)%N.
Proof.
  induction f as [|f IH]; intros n acc a Hn; simpl.
  - simpl in Hn. destruct (digit_facts n) as (Hd & Hv & _); [lia|].
    rewrite Hd, Hv. reflexivity.
  - destruct (n <? 10)%N eqn:E.
    + apply N.ltb_lt in E. destruct (digit_facts n E) as (Hd & Hv & _).
      simpl. rewrite Hd, Hv. reflexivity.
    + apply N.ltb_ge in E.
      assert (Hq : (n / 10 < 10 ^ N.of_nat (S f))%N).
      { rewrite Nat2N.inj_succ, N.pow_succ_r' in Hn.
        apply N.Div0.div_lt_upper_bound. lia. }
      rewrite IH by exact Hq.
      destruct (digit_facts (n mod 10)) as (Hd & Hv & _); [apply N.mod_lt; lia|].
      simpl. rewrite Hd, Hv.
      rewrite (dec_aux_app f (n / 10) (String _ EmptyString)), length_app_s. simpl.
      f_equal.
      set (L := String.length (Py.dec_aux f (n / 10) EmptyString)).
      rewrite Nat.add_1_r, Nat2N.inj_succ, N.pow_succ_r'.
      pose proof (N.div_mod n 10 ltac:(lia)). nia.
Qed.

Lemma size_nat_bound (p : positive) : (Npos p < 2 ^ N.of_nat (Pos.size_nat p))%N.
Proof.
  induction p as [p IH|p IH|]; simpl Pos.size_nat; rewrite ?Nat2N.inj_succ, ?N.pow_succ_r'.
  - change (Npos p~1) with (2 * Npos p + 1)%N. lia.
  - change (Npos p~0) with (2 * Npos p)%N. lia.
  - reflexivity.
Qed.

Lemma fuel_ok (p : positive) : (Npos p < 10 ^ N.of_nat (S (Pos.size_nat p)))%N.
Proof.
  pose proof (size_nat_bound p).
  assert (2 ^ N.of_nat (Pos.size_nat p) <= 10 ^ N.of_nat (Pos.size_nat p))%N
    by (apply N.pow_le_mono_l; lia).
  rewrite Nat2N.inj_succ, N.pow_succ_r'. lia.
Qed.

Lemma parse_dec (p : positive) :
  parse_unsigned (Py.dec_aux (Pos.size_nat p) (Npos p) EmptyString) = Some (Npos p).
Proof.
  pose proof (fuel_ok p) as Hf.
  destruct (dec_aux_first _ _ EmptyString Hf) as (m & rest & Hm & Heq).
  pose proof (dec_aux_parse _ _ EmptyString 0 Hf) as Hp.
  rewrite Heq in Hp |- *. simpl in Hp |- *.
  destruct (digit_facts m Hm) as (Hd & _ & _).
  rewrite Hd in *. exact Hp.
Qed.

Lemma str_int_no_space (z : Z) : no_space (Py.str_int z) = true.
Proof.
  destruct z as [|p|p]; [reflexivity| |].
  - apply dec_aux_no_space; [apply fuel_ok|reflexivity].
  - simpl. apply dec_aux_no_space; [apply fuel_ok|reflexivity].
Qed.

Lemma first_nonempty_nonempty (vs : list (option string)) (k : string) :
  first_nonempty vs = Some k -> k <> EmptyString.
Proof.
  induction vs as [|v vs IH]; simpl; [discriminate|].
  destruct (truthy v) eqn:E; [|exact IH].
  intros ->. simpl in E. intros ->. discriminate.
Qed.

(** Extra X1.  The API key is the first of GENAI_API_KEY, GOOGLE_API_KEY,
    API_KEY that is set to a non-empty value (a variable set to the
    empty string is skipped); when there is none, start-up fails with
    the RuntimeError asking for GENAI_API_KEY.  A loaded key is never
    empty. *)
Theorem api_key_precedence (env : environ) :
  load_api_key env =
    match first_nonempty [env "GENAI_API_KEY"; env "GOOGLE_API_KEY"; env "API_KEY"] with
    | Some k => inr k
    | None => inl (runtime_error key_missing_msg)
    end
  /\ (forall k, load_api_key env = inr k -> k <> EmptyString).
Proof.
  assert (H : load_api_key env =
    match first_nonempty [env "GENAI_API_KEY"; env "GOOGLE_API_KEY"; env "API_KEY"] with
    | Some k => inr k
    | None => inl (runtime_error key_missing_msg)
    end).
  { unfold load_api_key, py_or.
    destruct (env "GENAI_API_KEY") as [[|c1 s1]|];
    destruct (env "GOOGLE_API_KEY") as [[|c2 s2]|];
    destruct (env "API_KEY") as [[|c3 s3]|]; reflexivity. }
  split; [exact H|]. intros k Hk. rewrite H in Hk.
  destruct (first_nonempty _) as [k'|] eqn:E; [|discriminate].
  injection Hk as <-. exact (first_nonempty_nonempty _ _ E).
Qed.

(** Extra X2.  The model name is the first of GENAI_MODEL, MODEL that is
    set to a non-empty value, and "gemini-2.5-flash" otherwise; it is
    never None nor empty. *)
Theorem model_name_resolution (env : environ) :
  MODEL_NAME env =
    Some (match first_nonempty [env "GENAI_MODEL"; env "MODEL"] with
          | Some m => m
          | None => "gemini-2.5-flash"
          end)
  /\ forall m, MODEL_NAME env = Some m -> m <> EmptyString.
Proof.
  assert (H : MODEL_NAME env =
    Some (match first_nonempty [env "GENAI_MODEL"; env "MODEL"] with
          | Some m => m
          | None => "gemini-2.5-flash"
          end)).
  { unfold MODEL_NAME, py_or.
    destruct (env "GENAI_MODEL") as [[|c1 s1]|];
    destruct (env "MODEL") as [[|c2 s2]|]; reflexivity. }
  split; [exact H|]. intros m Hm. rewrite H in Hm.
  destruct (first_nonempty [env "GENAI_MODEL"; env "MODEL"]) as [k|] eqn:E;
    injection Hm as <-; [exact (first_nonempty_nonempty _ _ E)|discriminate].
Qed.

(** Extra X3.  [int()] reads back every int that [str()] prints:
    int(str(z)) = z. *)
Theorem int_str_roundtrip (z : Z) : py_int (Py.str_int z) = inr z.
Proof.
  unfold py_int. rewrite (strip_no_space _ (str_int_no_space z)).
  destruct z as [|p|p]; [reflexivity| |].
  - pose proof (parse_dec p) as Hp.
    destruct (dec_aux_first _ (Npos p) EmptyString (fuel_ok p)) as (m & rest & Hm & Heq).
    destruct (digit_facts m Hm) as (_ & _ & _ & Hminus & Hplus).
    simpl Py.str_int. rewrite Heq in Hp |- *. cbv zeta. rewrite Hminus, Hplus, Hp.
    reflexivity.
  - pose proof (parse_dec p) as Hp. simpl Py.str_int. cbv zeta. lazy beta iota.
    rewrite Ascii.eqb_refl, Hp. reflexivity.
Qed.

(** Extra X4.  The listening port: 10000 when PORT is unset; the int a
    PORT value prints as when it is set to one; and a ValueError (the
    process does not start) when PORT is set to the empty string, which,
    unlike the key and model variables, is not replaced by the
    default. *)
Theorem port_resolution (env : environ) :
  (env "PORT" = None -> port env = inr 10000%Z) /\
  (forall z, env "PORT" = Some (Py.str_int z) -> port env = inr z) /\
  (env "PORT" = Some EmptyString ->
   port env = inl (mk_exc "ValueError" ("invalid literal for int() with base 10: "
                                        ++ Py.repr_str EmptyString))).
Proof.
  unfold port. split; [intros ->; reflexivity|]. split.
  - intros z ->. apply int_str_roundtrip.
  - intros ->. reflexivity.
Qed.

(** Witness of X4: PORT=8080. *)
Lemma port_resolution_witness :
  port (fun k => if String.eqb k "PORT" then Some (Py.str_int 8080) else None) = inr 8080%Z.
Proof.
  apply (proj1 (proj2 (port_resolution
    (fun k => if String.eqb k "PORT" then Some (Py.str_int 8080) else None))) 8080%Z).
  reflexivity.
Defined.

End AppConfigProofs.

(* ================================================================== *)
(** * Further properties of Service A                                   *)
(* ================================================================== *)

Module ServiceAExtras.
Import ServiceA ServiceAProofs StringFacts.

(** A model that always answers " hi ". *)
Definition answer_hi (_ : nat) : outcome := Ok " hi ".

Lemma render_obj (kv : list (string * json)) : exists piece, render_msg (JObj kv) = inr piece.
Proof. unfold render_msg. simpl. eexists. reflexivity. Qed.

Lemma build_loop_acc (msgs : list json) : forall acc,
  build_loop msgs acc =
  match build_loop msgs EmptyString with
  | inl e => inl e
  | inr s => inr (acc ++ s)
  end.
Proof.
  induction msgs as [|m msgs IH]; intros acc; simpl.
  - now rewrite app_empty_s.
  - destruct (render_msg m) as [e|piece]; [reflexivity|].
    rewrite (IH (acc ++ piece)), (IH piece).
    destruct (build_loop msgs EmptyString); [reflexivity|]. now rewrite app_assoc_s.
Qed.

Lemma build_loop_app (xs ys : list json) : forall acc,
  build_loop (xs ++ ys) acc =
  match build_loop xs acc with
  | inl e => inl e
  | inr a => build_loop ys a
  end.
Proof.
  induction xs as [|x xs IH]; intros acc; simpl; [reflexivity|].
  destruct (render_msg x); [reflexivity|]. apply IH.
Qed.

Lemma build_loop_objs (pre : list json) :
  Forall (fun x => exists kv, x = JObj kv) pre ->
  forall acc, exists a, build_loop pre acc = inr a.
Proof.
  induction 1 as [|x pre [kv ->] _ IH]; intros acc; cbn [build_loop]; [now eexists|].
  destruct (render_obj kv) as [piece ->]. apply IH.
Qed.

(** The view once [history] has been read from a dict body. *)
Lemma handle_submit_obj (gc : nat -> outcome) (kvs : list (string * json)) (h : json) :
  dict_get "history" kvs = Some h ->
  handle_submit gc (JsonBody (JObj kvs)) =
  match py_len h with
  | inl e => (error_response e, [])
  | inr _ =>
      let '(r, tr) := chat_with_gemini gc h 3 in
      (match r with
       | RetText s => Response 200 (JObj [("response", JStr s)])
       | RetNone => Response 200 (JObj [("response", JNull)])
       | Raise e => error_response e
       end, tr)
  end.
Proof. intros H. unfold handle_submit. cbn [get_json py_get]. now rewrite H. Qed.

(** Extra X5.  A dict body with no "history" key, or whose history is
    an empty list, string or dict, is served as an empty conversation:
    the model is prompted with the empty string under the usual retry
    policy (budget 3), and its answer or failure is reported as for any
    other history. *)
Theorem submit_empty_history (gc : nat -> outcome) (kvs : list (string * json)) :
  match dict_get "history" kvs with
  | None => True
  | Some h => h = JArr [] \/ h = JStr EmptyString \/ h = JObj []
  end ->
  handle_submit gc (JsonBody (JObj kvs)) =
  let '(r, tr) := generate_with_retries gc EmptyString 3 in
  (match r with
   | RetText s => Response 200 (JObj [("response", JStr s)])
   | RetNone => Response 200 (JObj [("response", JNull)])
   | Raise e => error_response e
   end, tr).
Proof.
  intros H. unfold handle_submit. cbn [get_json py_get].
  destruct (dict_get "history" kvs) as [h|]; [|reflexivity].
  destruct H as [->|[->| ->]]; reflexivity.
Qed.

(** Extra X6.  A history that is None, a bool or a number makes
    [len(history)] raise inside the try block: HTTP 500 with the
    TypeError's message, and the model is never called. *)
Theorem submit_unsized_history (gc : nat -> outcome) (kvs : list (string * json)) (h : json) :
  dict_get "history" kvs = Some h ->
  (h = JNull \/ (exists b, h = JBool b) \/ (exists z, h = JNum z)) ->
  handle_submit gc (JsonBody (JObj kvs)) =
    (error_response (type_error ("object of type '" ++ py_type_name h ++ "' has no len()")), []).
Proof.
  intros Hh Hk. rewrite (handle_submit_obj gc kvs h Hh).
  destruct Hk as [->|[[b ->]|[z ->]]]; reflexivity.
Qed.

(** Extra X7.  A history list holding an element that is not a dict,
    after only dicts, makes the prompt assembly raise at that element:
    HTTP 500 with "'<type>' object has no attribute 'get'" for that
    element, and the model is never called. *)
Theorem submit_non_dict_turn (gc : nat -> outcome) (kvs : list (string * json))
    (pre post : list json) (v : json) :
  dict_get "history" kvs = Some (JArr (pre ++ v :: post)) ->
  Forall (fun x => exists kv, x = JObj kv) pre ->
  (forall kv, v <> JObj kv) ->
  handle_submit gc (JsonBody (JObj kvs)) = (error_response (attribute_error v "get"), []).
Proof.
  intros Hh Hpre Hv. rewrite (handle_submit_obj gc kvs _ Hh). simpl py_len. cbv iota.
  unfold chat_with_gemini, build_conversation. simpl py_iter. cbv iota.
  rewrite build_loop_app.
  destruct (build_loop_objs pre Hpre EmptyString) as [a Hok]. rewrite Hok.
  cbn [build_loop].
  assert (Hr : render_msg v = inl (attribute_error v "get")).
  { destruct v; try reflexivity. exfalso. eapply Hv. reflexivity. }
  rewrite Hr. reflexivity.
Qed.

(** Extra X8.  A history that is a non-empty string or a non-empty dict
    is iterated as its characters or keys, which are strings: HTTP 500
    with "'str' object has no attribute 'get'", and the model is never
    called. *)
Theorem submit_str_or_dict_history (gc : nat -> outcome) (kvs : list (string * json)) (h : json) :
  dict_get "history" kvs = Some h ->
  ((exists c s, h = JStr (String c s)) \/ (exists k v rest, h = JObj ((k, v) :: rest))) ->
  handle_submit gc (JsonBody (JObj kvs)) =
    (error_response (attribute_error (JStr EmptyString) "get"), []).
Proof.
  intros Hh Hk. rewrite (handle_submit_obj gc kvs h Hh).
  destruct Hk as [(c & s & ->)|(k & v & rest & ->)]; reflexivity.
Qed.

(** Extra X9.  Prompt assembly composes over concatenated histories:
    the prompt of [xs ++ ys] is the prompt of [xs] followed by the prompt
    of [ys], and it fails with the first failure met, in order. *)
Theorem build_conversation_app (xs ys : list json) :
  build_conversation (JArr (xs ++ ys)) =
  match build_conversation (JArr xs) with
  | inl e => inl e
  | inr a =>
      match build_conversation (JArr ys) with
      | inl e => inl e
      | inr b => inr (a ++ b)
      end
  end.
Proof.
  unfold build_conversation. simpl py_iter. cbv iota.
  rewrite build_loop_app. destruct (build_loop xs EmptyString) as [e|a]; [reflexivity|].
  apply build_loop_acc.
Qed.

Lemma lstrip_id (s : string) : no_lead_space s -> Py.lstrip s = s.
Proof. destruct s as [|c s]; simpl; [reflexivity|]. now intros ->. Qed.

Lemma strip_id (s : string) : no_lead_space s -> no_lead_space (R s) -> Py.strip s = s.
Proof.
  intros H1 H2. unfold Py.strip, Py.rstrip. rewrite (lstrip_id s H1).
  fold (R s). rewrite (lstrip_id (R s) H2). apply R_involutive.
Qed.

Lemma strip_strip (t : string) : Py.strip (Py.strip t) = Py.strip t.
Proof. destruct (strip_ends t) as [H1 H2]. now apply strip_id. Qed.

Lemma stop_result_text (retries : Z) (o : outcome) (s : string) :
  stop_result retries o = RetText s -> exists t, o = Ok t /\ s = Py.strip t.
Proof.
  destruct o as [t|e]; simpl.
  - intros H. inversion H. eauto.
  - destruct (has_marker (exc_msg e)); discriminate.
Qed.

Lemma stop_result_not_none (retries : Z) (o : outcome) : stop_result retries o <> RetNone.
Proof. destruct o as [t|e]; simpl; [discriminate|]. destruct (has_marker (exc_msg e)); discriminate. Qed.

Lemma retried_calls_events (c : string) (k d : nat) :
  Forall (fun ev => match ev with ECall p => p = c | ESleep b => (1 <= b <= 10)%Z end)
    (retried_calls c k d ++ [ECall c])%list.
Proof.
  apply Forall_app. split; [|repeat constructor].
  unfold retried_calls. apply Forall_flat_map. apply Forall_forall. intros j _.
  constructor; [reflexivity|]. constructor; [|constructor].
  unfold backoff_at. pose proof (Z.pow_pos_nonneg 2 (Z.of_nat j)). lia.
Qed.

(** Extra X10.  Every answer text returned by Service A's
    [chat_with_gemini] is already stripped: [strip()] leaves it as it is. *)
Theorem chat_answer_stripped (gc : nat -> outcome) (history : json) (retries : Z) (s : string) :
  fst (chat_with_gemini gc history retries) = RetText s -> Py.strip s = s.
Proof.
  unfold chat_with_gemini. destruct (build_conversation history) as [e|c]; [discriminate|].
  destruct (controller_shape gc c retries) as [[_ ->]|(d & _ & _ & _ & ->)]; [discriminate|].
  simpl. intros H. destruct (stop_result_text _ _ _ H) as (t & _ & ->). apply strip_strip.
Qed.

(** Extra X11.  Service A's [chat_with_gemini] returns None exactly
    when the history assembles and the budget [retries] is at most 0; it
    then makes no call and no sleep. *)
Theorem chat_none_iff (gc : nat -> outcome) (history : json) (retries : Z) :
  (fst (chat_with_gemini gc history retries) = RetNone <->
   (exists c, build_conversation history = inr c) /\ (retries <= 0)%Z) /\
  (fst (chat_with_gemini gc history retries) = RetNone ->
   snd (chat_with_gemini gc history retries) = []).
Proof.
  unfold chat_with_gemini. destruct (build_conversation history) as [e|c].
  - split; [split; [discriminate|intros [[c H] _]; discriminate]|discriminate].
  - destruct (controller_shape gc c retries) as [[Hle ->]|(d & Hd & _ & _ & ->)].
    + simpl. split; [split; [intros _; split; [eauto|exact Hle]|reflexivity]|reflexivity].
    + simpl. split; [split|]; intros H.
      * exfalso. exact (stop_result_not_none _ _ H).
      * lia.
      * exfalso. exact (stop_result_not_none _ _ H).
Qed.

(** Extra X12.  Service A calls the model at most [max(retries, 0)]
    times for one chat; every call is made with the assembled prompt,
    and every sleep lasts between 1 and 10 seconds. *)
Theorem chat_calls_bounded (gc : nat -> outcome) (history : json) (retries : Z) :
  let tr := snd (chat_with_gemini gc history retries) in
  (count_calls tr <= Z.to_nat retries)%nat /\
  Forall (fun ev => match ev with
                    | ECall p => build_conversation history = inr p
                    | ESleep b => (1 <= b <= 10)%Z
                    end) tr.
Proof.
  cbv zeta. unfold chat_with_gemini. destruct (build_conversation history) as [e|c] eqn:E.
  - split; [apply Nat.le_0_l|constructor].
  - destruct (controller_shape gc c retries) as [[Hle ->]|(d & Hd & _ & _ & ->)].
    + split; [apply Nat.le_0_l|constructor].
    + simpl. rewrite count_retried_calls. split; [lia|].
      eapply Forall_impl; [|apply (retried_calls_events c 0 d)].
      intros [p|b]; simpl; [intros ->; reflexivity|tauto].
Qed.

Lemma submit_empty_history_witness :
  dict_get "history" [("message", JStr "x")] = None /\
  handle_submit answer_hi (JsonBody (JObj [("message", JStr "x")])) =
  let '(r, tr) := generate_with_retries answer_hi EmptyString 3 in
  (match r with
   | RetText s => Response 200 (JObj [("response", JStr s)])
   | RetNone => Response 200 (JObj [("response", JNull)])
   | Raise e => error_response e
   end, tr).
Proof. split; [reflexivity|]. apply (submit_empty_history answer_hi [("message", JStr "x")]). exact I. Defined.

Lemma submit_unsized_history_witness :
  handle_submit answer_hi (JsonBody (JObj [("history", JNull)])) =
    (error_response (type_error ("object of type '" ++ py_type_name JNull ++ "' has no len()")), []).
Proof. apply (submit_unsized_history answer_hi [("history", JNull)] JNull); [reflexivity|now left]. Defined.

Lemma submit_non_dict_turn_witness :
  handle_submit answer_hi
    (JsonBody (JObj [("history", JArr [JObj [("role", JStr "user")]; JNum 5])])) =
    (error_response (attribute_error (JNum 5) "get"), []).
Proof.
  apply (submit_non_dict_turn answer_hi _ [JObj [("role", JStr "user")]] [] (JNum 5)).
  - reflexivity.
  - constructor; [eexists; reflexivity|constructor].
  - intros kv. discriminate.
Defined.

Lemma submit_str_or_dict_history_witness :
  handle_submit answer_hi (JsonBody (JObj [("history", JStr "hi")])) =
    (error_response (attribute_error (JStr EmptyString) "get"), []).
Proof.
  apply (submit_str_or_dict_history answer_hi _ (JStr "hi")); [reflexivity|].
  left. do 2 eexists. reflexivity.
Defined.

Lemma chat_answer_stripped_witness :
  fst (chat_with_gemini answer_hi (JArr []) 3) = RetText "hi" /\ Py.strip "hi" = "hi".
Proof.
  split; [reflexivity|]. apply (chat_answer_stripped answer_hi (JArr []) 3). reflexivity.
Defined.

End ServiceAExtras.

(* ================================================================== *)
(** * Further properties of Service B                                   *)
(* ================================================================== *)

Module ServiceBExtras.
Import ServiceB ServiceBProofs ServiceAExtras.

Definition stripped_row (r : row) : Prop := Py.strip (response r) = response r.

Lemma select_app_some (rows ext : table) (q r : string) :
  select_response rows q = Some r -> select_response (rows ++ ext)%list q = Some r.
Proof.
  induction rows as [|x rows IH]; simpl; [discriminate|].
  destruct (String.eqb (question x) q); [tauto|exact IH].
Qed.

Lemma select_app_none (rows : table) (q r : string) :
  select_response rows q = None -> select_response (rows ++ [mk_row q r])%list q = Some r.
Proof.
  induction rows as [|x rows IH]; simpl.
  - now rewrite String.eqb_refl.
  - destruct (String.eqb (question x) q); [discriminate|exact IH].
Qed.

Lemma select_stable (reqs : list (string * outcome)) :
  forall rows q r, select_response rows q = Some r ->
  select_response (run_requests rows reqs) q = Some r.
Proof.
  induction reqs as [|[q' o] reqs IH]; intros rows q r H; simpl; [exact H|].
  pose proof (get_response_table o rows q') as Ht.
  destruct (get_response o rows q') as [[res rows'] tr].
  apply IH. destruct Ht as [->|[x [-> _]]]; [exact H|]. now apply select_app_some.
Qed.

Lemma answered_cached (reqs : list (string * outcome)) (q t : string) :
  In (q, Ok t) reqs -> forall rows, exists r, select_response (run_requests rows reqs) q = Some r.
Proof.
  induction reqs as [|[q' o] reqs IH]; intros Hin rows; [destruct Hin|].
  destruct Hin as [[= -> ->]|Hin]; simpl.
  - unfold get_response at 1.
    destruct (select_response rows q) as [r|] eqn:E.
    + exists r. now apply select_stable.
    + simpl. exists (Py.strip t). apply select_stable. now apply select_app_none.
  - destruct (get_response o rows q') as [[res rows'] tr]. apply IH, Hin.
Qed.

Lemma get_response_stripped (o : outcome) (rows : table) (q : string) :
  Forall stripped_row rows ->
  let '(res, rows', _) := get_response o rows q in
  Forall stripped_row rows' /\ (forall a, res = inr a -> Py.strip a = a).
Proof.
  intros Hall. unfold get_response.
  destruct (select_response rows q) as [r|] eqn:E.
  - split; [exact Hall|]. intros a [= <-].
    apply select_response_in in E. rewrite Forall_forall in Hall. exact (Hall _ E).
  - unfold chat_with_gemini. destruct o as [t|e]; simpl.
    + split; [|intros a [= <-]; apply strip_strip].
      apply Forall_app. split; [exact Hall|]. constructor; [apply strip_strip|constructor].
    + split; [exact Hall|discriminate].
Qed.

Lemma run_requests_stripped (reqs : list (string * outcome)) :
  forall rows, Forall stripped_row rows -> Forall stripped_row (run_requests rows reqs).
Proof.
  induction reqs as [|[q o] reqs IH]; intros rows H; simpl; [exact H|].
  pose proof (get_response_stripped o rows q H) as Hs.
  destruct (get_response o rows q) as [[res rows'] tr]. apply IH, Hs.
Qed.

Lemma count_calls_app (a b : list event) :
  count_calls (a ++ b)%list = (count_calls a + count_calls b)%nat.
Proof. unfold count_calls. now rewrite filter_app, length_app. Qed.

Lemma trace_run (reqs : list (string * outcome)) :
  (forall q o, In (q, o) reqs -> exists t, o = Ok t) ->
  forall rows,
  let '(final, tr) := run_requests_trace rows reqs in
  final = run_requests rows reqs /\
  (exists ext, final = (rows ++ ext)%list /\ count_calls tr = length ext) /\
  (forall q, In q (map question final) <-> In q (map question rows) \/ In q (map fst reqs)).
Proof.
  induction reqs as [|[q o] reqs IH]; intros Hok rows; simpl.
  - split; [reflexivity|]. split; [exists []; split; [now rewrite app_nil_r|reflexivity]|].
    intros q. tauto.
  - destruct (Hok q o (or_introl eq_refl)) as [t ->].
    assert (Hok' : forall q o, In (q, o) reqs -> exists t, o = Ok t)
      by (intros q' o' H; apply (Hok q' o'); now right).
    unfold get_response.
    destruct (select_response rows q) as [r|] eqn:E; simpl.
    + specialize (IH Hok' rows).
      destruct (run_requests_trace rows reqs) as [final tr'].
      destruct IH as (Hf & (ext & Hext & Hc) & Hq).
      split; [exact Hf|]. split; [exists ext; split; assumption|].
      intros q'. rewrite Hq. apply select_response_in in E.
      split; [tauto|]. intros [H|[<-|H]]; try tauto. left.
      apply in_map_iff. now exists (mk_row q r).
    + specialize (IH Hok' (rows ++ [mk_row q (Py.strip t)])%list).
      destruct (run_requests_trace (rows ++ [mk_row q (Py.strip t)])%list reqs) as [final tr'].
      destruct IH as (Hf & (ext & Hext & Hc) & Hq).
      split; [exact Hf|]. split.
      * exists (mk_row q (Py.strip t) :: ext). rewrite Hext, <- app_assoc.
        split; [reflexivity|]. simpl. unfold count_calls in *. simpl. now rewrite Hc.
      * intros q'. rewrite Hq, map_app, in_app_iff. simpl. tauto.
Qed.

(** Extra X13.  Starting from an empty table, every response Service B
    stores is already stripped, and so is every answer it returns: on a
    miss it strips the model's text, on a hit it returns a stored one. *)
Theorem responses_stripped (reqs : list (string * outcome)) (o : outcome) (q a : string) :
  Forall (fun r => Py.strip (response r) = response r) (run_requests init_db reqs) /\
  (fst (fst (get_response o (run_requests init_db reqs) q)) = inr a -> Py.strip a = a).
Proof.
  pose proof (run_requests_stripped reqs init_db (Forall_nil _)) as H.
  split; [exact H|].
  pose proof (get_response_stripped o _ q H) as Hs.
  destruct (get_response o (run_requests init_db reqs) q) as [[res rows'] tr].
  simpl. apply Hs.
Qed.

(** Extra X14.  Once the model has answered a question [q], every later
    request for [q], also after a restart of the service on the same
    database file ([CREATE TABLE IF NOT EXISTS] keeps the rows), is
    answered from the table with one and the same response, leaves the
    table as it is and makes no model call, whatever the model would do. *)
Theorem answered_question_cached (reqs1 : list (string * outcome)) (q t : string) :
  In (q, Ok t) reqs1 ->
  exists r, forall (reqs2 : list (string * outcome)) (o : outcome),
    let rows := create_table_if_not_exists (Some (run_requests init_db (reqs1 ++ reqs2))) in
    get_response o rows q = (inr r, rows, []).
Proof.
  intros Hin. destruct (answered_cached reqs1 q t Hin init_db) as [r Hr].
  exists r. intros reqs2 o. simpl. rewrite run_requests_app.
  unfold get_response. now rewrite (select_stable reqs2 _ q r Hr).
Qed.

(** Extra X15.  When the model answers every request, a run of requests
    from an empty table calls the model exactly once per distinct
    question, and the table ends with one row per distinct question. *)
Theorem calls_per_distinct_question (reqs : list (string * outcome)) :
  (forall q o, In (q, o) reqs -> exists t, o = Ok t) ->
  exists D : list string,
    NoDup D /\ (forall q, In q D <-> In q (map fst reqs)) /\
    count_calls (snd (run_requests_trace init_db reqs)) = length D /\
    length (fst (run_requests_trace init_db reqs)) = length D.
Proof.
  intros Hok. pose proof (trace_run reqs Hok init_db) as H.
  destruct (run_requests_trace init_db reqs) as [final tr].
  destruct H as (Hf & (ext & Hext & Hc) & Hq).
  exists (map question final). simpl.
  split; [rewrite Hf; apply (proj1 (run_requests_extends reqs init_db (NoDup_nil _)))|].
  split; [intros q; rewrite Hq; simpl; tauto|].
  rewrite length_map, Hc, Hext. simpl. split; reflexivity.
Qed.

Lemma answered_question_cached_witness :
  exists r, forall (reqs2 : list (string * outcome)) (o : outcome),
    let rows := create_table_if_not_exists
                  (Some (run_requests init_db ([("Q1", Ok " A1 ")] ++ reqs2))) in
    get_response o rows "Q1" = (inr r, rows, []).
Proof. apply (answered_question_cached [("Q1", Ok " A1 ")] "Q1" " A1 "). now left. Defined.

Lemma calls_per_distinct_question_witness :
  exists D : list string,
    NoDup D /\ (forall q, In q D <-> In q (map fst [("Q1", Ok "A"); ("Q2", Ok "B"); ("Q1", Ok "C")])) /\
    count_calls (snd (run_requests_trace init_db [("Q1", Ok "A"); ("Q2", Ok "B"); ("Q1", Ok "C")])) = length D /\
    length (fst (run_requests_trace init_db [("Q1", Ok "A"); ("Q2", Ok "B"); ("Q1", Ok "C")])) = length D.
Proof.
  apply calls_per_distinct_question.
  intros q o [[= _ <-]|[[= _ <-]|[[= _ <-]|[]]]]; eexists; reflexivity.
Defined.

End ServiceBExtras.
